(** * RawRouteData.h: the result record handed from route search to
      response assembly

    A shallow embedding of [struct PathData] and [struct RawRouteData]
    (DataStructures/RawRouteData.h) and of the C++ operations the header
    gives them: the two [PathData] constructors, the [RawRouteData]
    default constructor, and direct member access.

    Integral values are mathematical integers ([Z]); every store into a
    member converts the value to the member's declared type, with the
    wrap-around of the conversion written out.

    The specification calls [PathData] a PathSegment and [RawRouteData] a
    RouteResult, and names the members of the latter primary_path
    ([unpacked_path_segments]), alternative_path ([unpacked_alternative]),
    leg_endpoints ([segment_end_coordinates]), via_coordinates
    ([raw_via_node_coordinates]), checksum ([check_sum]),
    primary_path_length ([shortest_path_length]), alternative_path_length,
    source_reversed, target_reversed, alt_source_reversed and
    alt_target_reversed (the four [..._traversed_in_reverse] flags). *)

From Stdlib Require Import ZArith List Bool Lia Permutation.
Import ListNotations.
Local Open Scope Z_scope.

(** ** C++ integral types *)

(** An integral type is given by its signedness and its width in bits. *)
Record IntType : Type := { is_signed : bool; bits : N }.

Definition modulus (t : IntType) : Z := 2 ^ Z.of_N (bits t).

(** [std::numeric_limits<T>::max()] and [::min()]. *)
Definition numeric_limits_max (t : IntType) : Z :=
  if is_signed t then modulus t / 2 - 1 else modulus t - 1.

Definition numeric_limits_min (t : IntType) : Z :=
  if is_signed t then - (modulus t / 2) else 0.

(** The values of type [t]. *)
Definition in_range (t : IntType) (v : Z) : Prop :=
  numeric_limits_min t <= v <= numeric_limits_max t.

Definition in_rangeb (t : IntType) (v : Z) : bool :=
  (numeric_limits_min t <=? v) && (v <=? numeric_limits_max t).

(** Integral conversion to [t]: the unique value of [t] congruent to the
    source value modulo [2 ^ bits t]. *)
Definition convert (t : IntType) (v : Z) : Z :=
  if is_signed t
  then (v + modulus t / 2) mod modulus t - modulus t / 2
  else v mod modulus t.

(** [unsigned] and [int] are 32 bits wide on every platform the project
    builds on. *)
Definition unsigned : IntType := {| is_signed := false; bits := 32 |}.
Definition int : IntType := {| is_signed := true; bits := 32 |}.

(** An unsigned integral type of the given width; [unsigned_char] is the
    8-bit one. *)
Definition unsigned_of_width (w : N) : IntType :=
  {| is_signed := false; bits := w |}.
Definition unsigned_char : IntType := unsigned_of_width 8.

(** Modelled from the spec: typedefs.h, which declares [NodeID], is not
    among the sources.  The data model gives [node] an unsigned integer
    domain whose sentinel is the maximum value, and the default
    constructor initialises it from [std::numeric_limits<unsigned>::max()];
    [NodeID] is [unsigned]. *)
Definition NodeID : IntType := unsigned.

(** Left-to-right application, for member-initialiser lists. *)
Notation "x |> f" := (f x) (at level 68, left associativity, only parsing).

(** ** struct PathData *)

Record PathData : Type := {
  node : Z;
  name_id : Z;
  segment_duration : Z;
  turn_instruction : Z
}.

Section PathData.

(** Modelled from the spec: TurnInstructions.h, which declares
    [TurnInstruction], is not among the sources.  The data model
    describes [turn_instruction] as an enumerated maneuver code whose
    sentinel is the maximum value of its underlying representation: an
    unsigned integral type, whose width is a parameter here. *)
Variable TurnInstruction_bits : N.

Definition TurnInstruction : IntType :=
  unsigned_of_width TurnInstruction_bits.

(** Initialising one member from an expression of value [v]: the value
    is converted to the member's declared type, the other members keep
    what they hold. *)
Definition init_node (v : Z) (p : PathData) : PathData :=
  {| node := convert NodeID v;
     name_id := name_id p;
     segment_duration := segment_duration p;
     turn_instruction := turn_instruction p |}.

Definition init_name_id (v : Z) (p : PathData) : PathData :=
  {| node := node p;
     name_id := convert unsigned v;
     segment_duration := segment_duration p;
     turn_instruction := turn_instruction p |}.

Definition init_segment_duration (v : Z) (p : PathData) : PathData :=
  {| node := node p;
     name_id := name_id p;
     segment_duration := convert unsigned v;
     turn_instruction := turn_instruction p |}.

Definition init_turn_instruction (v : Z) (p : PathData) : PathData :=
  {| node := node p;
     name_id := name_id p;
     segment_duration := segment_duration p;
     turn_instruction := convert TurnInstruction v |}.

(** [PathData::PathData()].  [raw] is the indeterminate content of the
    storage the object is built in; members are initialised in
    declaration order. *)
Definition PathData_ctor (raw : PathData) : PathData :=
  raw |> init_node (numeric_limits_max unsigned)
      |> init_name_id (numeric_limits_max unsigned)
      |> init_segment_duration (numeric_limits_max unsigned)
      |> init_turn_instruction (numeric_limits_max TurnInstruction).

(** [PathData::PathData(NodeID no, unsigned na, unsigned tu, unsigned dur)]. *)
Definition PathData_ctor4 (raw : PathData) (no na tu dur : Z) : PathData :=
  raw |> init_node no
      |> init_name_id na
      |> init_segment_duration dur
      |> init_turn_instruction tu.

(** The values a [PathData] object may hold: each member within its
    declared type. *)
Definition PathData_wf (p : PathData) : Prop :=
  in_range NodeID (node p) /\
  in_range unsigned (name_id p) /\
  in_range unsigned (segment_duration p) /\
  in_range TurnInstruction (turn_instruction p).

(** Every member holds the sentinel of its type. *)
Definition PathData_unset (p : PathData) : Prop :=
  node p = numeric_limits_max NodeID /\
  name_id p = numeric_limits_max unsigned /\
  segment_duration p = numeric_limits_max unsigned /\
  turn_instruction p = numeric_limits_max TurnInstruction.

(** Every member holds the constructor argument passed for it, converted
    to the member's type. *)
Definition PathData_set_from (no na tu dur : Z) (p : PathData) : Prop :=
  node p = convert NodeID no /\
  name_id p = convert unsigned na /\
  segment_duration p = convert unsigned dur /\
  turn_instruction p = convert TurnInstruction tu.

(** The objects the struct's two constructors produce, the arguments of
    the second ranging over their parameter types. *)
Inductive PathData_constructed : PathData -> Prop :=
| constructed_default (raw : PathData) :
    PathData_constructed (PathData_ctor raw)
| constructed_from_args (raw : PathData) (no na tu dur : Z) :
    in_range NodeID no -> in_range unsigned na ->
    in_range unsigned tu -> in_range unsigned dur ->
    PathData_constructed (PathData_ctor4 raw no na tu dur).

End PathData.

(** Storage whose four words are all zero, used where an example needs a
    concrete content for the storage an object is built in. *)
Definition PathData_zeroed : PathData :=
  {| node := 0; name_id := 0; segment_duration := 0; turn_instruction := 0 |}.

(** ** struct RawRouteData *)

Section RawRouteData.

(** [PhantomNodes] (PhantomNodes.h) and [FixedPointCoordinate]
    (osrm/Coordinate.h) are declared outside this header, which only
    stores vectors of them: they are type parameters. *)
Variables PhantomNodes FixedPointCoordinate : Type.

(** A [std::vector<T>] is the list of its elements. *)
Record RawRouteData : Type := {
  unpacked_path_segments : list (list PathData);
  unpacked_alternative : list PathData;
  segment_end_coordinates : list PhantomNodes;
  raw_via_node_coordinates : list FixedPointCoordinate;
  check_sum : Z;
  shortest_path_length : Z;
  alternative_path_length : Z;
  source_traversed_in_reverse : bool;
  target_traversed_in_reverse : bool;
  alt_source_traversed_in_reverse : bool;
  alt_target_traversed_in_reverse : bool
}.

(** The members, by name. *)
Inductive Field : Type :=
| f_unpacked_path_segments
| f_unpacked_alternative
| f_segment_end_coordinates
| f_raw_via_node_coordinates
| f_check_sum
| f_shortest_path_length
| f_alternative_path_length
| f_source_traversed_in_reverse
| f_target_traversed_in_reverse
| f_alt_source_traversed_in_reverse
| f_alt_target_traversed_in_reverse.

Definition Field_eqb (f g : Field) : bool :=
  match f, g with
  | f_unpacked_path_segments, f_unpacked_path_segments
  | f_unpacked_alternative, f_unpacked_alternative
  | f_segment_end_coordinates, f_segment_end_coordinates
  | f_raw_via_node_coordinates, f_raw_via_node_coordinates
  | f_check_sum, f_check_sum
  | f_shortest_path_length, f_shortest_path_length
  | f_alternative_path_length, f_alternative_path_length
  | f_source_traversed_in_reverse, f_source_traversed_in_reverse
  | f_target_traversed_in_reverse, f_target_traversed_in_reverse
  | f_alt_source_traversed_in_reverse, f_alt_source_traversed_in_reverse
  | f_alt_target_traversed_in_reverse, f_alt_target_traversed_in_reverse =>
      true
  | _, _ => false
  end.

(** What a member can hold. *)
Inductive FieldValue : Type :=
| v_legs (v : list (list PathData))
| v_path (v : list PathData)
| v_phantoms (v : list PhantomNodes)
| v_coordinates (v : list FixedPointCoordinate)
| v_unsigned (v : Z)
| v_int (v : Z)
| v_bool (v : bool).

(** Reading a member: [r.f]. *)
Definition read (f : Field) (r : RawRouteData) : FieldValue :=
  match f with
  | f_unpacked_path_segments => v_legs (unpacked_path_segments r)
  | f_unpacked_alternative => v_path (unpacked_alternative r)
  | f_segment_end_coordinates => v_phantoms (segment_end_coordinates r)
  | f_raw_via_node_coordinates =>
      v_coordinates (raw_via_node_coordinates r)
  | f_check_sum => v_unsigned (check_sum r)
  | f_shortest_path_length => v_int (shortest_path_length r)
  | f_alternative_path_length => v_int (alternative_path_length r)
  | f_source_traversed_in_reverse => v_bool (source_traversed_in_reverse r)
  | f_target_traversed_in_reverse => v_bool (target_traversed_in_reverse r)
  | f_alt_source_traversed_in_reverse =>
      v_bool (alt_source_traversed_in_reverse r)
  | f_alt_target_traversed_in_reverse =>
      v_bool (alt_target_traversed_in_reverse r)
  end.

(** Storing into one member, the value converted to the member's
    declared type; the other members keep what they hold. *)
Definition set_unpacked_path_segments (v : list (list PathData))
    (r : RawRouteData) : RawRouteData :=
  {| unpacked_path_segments := v;
     unpacked_alternative := unpacked_alternative r;
     segment_end_coordinates := segment_end_coordinates r;
     raw_via_node_coordinates := raw_via_node_coordinates r;
     check_sum := check_sum r;
     shortest_path_length := shortest_path_length r;
     alternative_path_length := alternative_path_length r;
     source_traversed_in_reverse := source_traversed_in_reverse r;
     target_traversed_in_reverse := target_traversed_in_reverse r;
     alt_source_traversed_in_reverse := alt_source_traversed_in_reverse r;
     alt_target_traversed_in_reverse := alt_target_traversed_in_reverse r |}.

Definition set_unpacked_alternative (v : list PathData)
    (r : RawRouteData) : RawRouteData :=
  {| unpacked_path_segments := unpacked_path_segments r;
     unpacked_alternative := v;
     segment_end_coordinates := segment_end_coordinates r;
     raw_via_node_coordinates := raw_via_node_coordinates r;
     check_sum := check_sum r;
     shortest_path_length := shortest_path_length r;
     alternative_path_length := alternative_path_length r;
     source_traversed_in_reverse := source_traversed_in_reverse r;
     target_traversed_in_reverse := target_traversed_in_reverse r;
     alt_source_traversed_in_reverse := alt_source_traversed_in_reverse r;
     alt_target_traversed_in_reverse := alt_target_traversed_in_reverse r |}.

Definition set_segment_end_coordinates (v : list PhantomNodes)
    (r : RawRouteData) : RawRouteData :=
  {| unpacked_path_segments := unpacked_path_segments r;
     unpacked_alternative := unpacked_alternative r;
     segment_end_coordinates := v;
     raw_via_node_coordinates := raw_via_node_coordinates r;
     check_sum := check_sum r;
     shortest_path_length := shortest_path_length r;
     alternative_path_length := alternative_path_length r;
     source_traversed_in_reverse := source_traversed_in_reverse r;
     target_traversed_in_reverse := target_traversed_in_reverse r;
     alt_source_traversed_in_reverse := alt_source_traversed_in_reverse r;
     alt_target_traversed_in_reverse := alt_target_traversed_in_reverse r |}.

Definition set_raw_via_node_coordinates (v : list FixedPointCoordinate)
    (r : RawRouteData) : RawRouteData :=
  {| unpacked_path_segments := unpacked_path_segments r;
     unpacked_alternative := unpacked_alternative r;
     segment_end_coordinates := segment_end_coordinates r;
     raw_via_node_coordinates := v;
     check_sum := check_sum r;
     shortest_path_length := shortest_path_length r;
     alternative_path_length := alternative_path_length r;
     source_traversed_in_reverse := source_traversed_in_reverse r;
     target_traversed_in_reverse := target_traversed_in_reverse r;
     alt_source_traversed_in_reverse := alt_source_traversed_in_reverse r;
     alt_target_traversed_in_reverse := alt_target_traversed_in_reverse r |}.

Definition set_check_sum (v : Z) (r : RawRouteData) : RawRouteData :=
  {| unpacked_path_segments := unpacked_path_segments r;
     unpacked_alternative := unpacked_alternative r;
     segment_end_coordinates := segment_end_coordinates r;
     raw_via_node_coordinates := raw_via_node_coordinates r;
     check_sum := convert unsigned v;
     shortest_path_length := shortest_path_length r;
     alternative_path_length := alternative_path_length r;
     source_traversed_in_reverse := source_traversed_in_reverse r;
     target_traversed_in_reverse := target_traversed_in_reverse r;
     alt_source_traversed_in_reverse := alt_source_traversed_in_reverse r;
     alt_target_traversed_in_reverse := alt_target_traversed_in_reverse r |}.

Definition set_shortest_path_length (v : Z)
    (r : RawRouteData) : RawRouteData :=
  {| unpacked_path_segments := unpacked_path_segments r;
     unpacked_alternative := unpacked_alternative r;
     segment_end_coordinates := segment_end_coordinates r;
     raw_via_node_coordinates := raw_via_node_coordinates r;
     check_sum := check_sum r;
     shortest_path_length := convert int v;
     alternative_path_length := alternative_path_length r;
     source_traversed_in_reverse := source_traversed_in_reverse r;
     target_traversed_in_reverse := target_traversed_in_reverse r;
     alt_source_traversed_in_reverse := alt_source_traversed_in_reverse r;
     alt_target_traversed_in_reverse := alt_target_traversed_in_reverse r |}.

Definition set_alternative_path_length (v : Z)
    (r : RawRouteData) : RawRouteData :=
  {| unpacked_path_segments := unpacked_path_segments r;
     unpacked_alternative := unpacked_alternative r;
     segment_end_coordinates := segment_end_coordinates r;
     raw_via_node_coordinates := raw_via_node_coordinates r;
     check_sum := check_sum r;
     shortest_path_length := shortest_path_length r;
     alternative_path_length := convert int v;
     source_traversed_in_reverse := source_traversed_in_reverse r;
     target_traversed_in_reverse := target_traversed_in_reverse r;
     alt_source_traversed_in_reverse := alt_source_traversed_in_reverse r;
     alt_target_traversed_in_reverse := alt_target_traversed_in_reverse r |}.

Definition set_source_traversed_in_reverse (v : bool)
    (r : RawRouteData) : RawRouteData :=
  {| unpacked_path_segments := unpacked_path_segments r;
     unpacked_alternative := unpacked_alternative r;
     segment_end_coordinates := segment_end_coordinates r;
     raw_via_node_coordinates := raw_via_node_coordinates r;
     check_sum := check_sum r;
     shortest_path_length := shortest_path_length r;
     alternative_path_length := alternative_path_length r;
     source_traversed_in_reverse := v;
     target_traversed_in_reverse := target_traversed_in_reverse r;
     alt_source_traversed_in_reverse := alt_source_traversed_in_reverse r;
     alt_target_traversed_in_reverse := alt_target_traversed_in_reverse r |}.

Definition set_target_traversed_in_reverse (v : bool)
    (r : RawRouteData) : RawRouteData :=
  {| unpacked_path_segments := unpacked_path_segments r;
     unpacked_alternative := unpacked_alternative r;
     segment_end_coordinates := segment_end_coordinates r;
     raw_via_node_coordinates := raw_via_node_coordinates r;
     check_sum := check_sum r;
     shortest_path_length := shortest_path_length r;
     alternative_path_length := alternative_path_length r;
     source_traversed_in_reverse := source_traversed_in_reverse r;
     target_traversed_in_reverse := v;
     alt_source_traversed_in_reverse := alt_source_traversed_in_reverse r;
     alt_target_traversed_in_reverse := alt_target_traversed_in_reverse r |}.

Definition set_alt_source_traversed_in_reverse (v : bool)
    (r : RawRouteData) : RawRouteData :=
  {| unpacked_path_segments := unpacked_path_segments r;
     unpacked_alternative := unpacked_alternative r;
     segment_end_coordinates := segment_end_coordinates r;
     raw_via_node_coordinates := raw_via_node_coordinates r;
     check_sum := check_sum r;
     shortest_path_length := shortest_path_length r;
     alternative_path_length := alternative_path_length r;
     source_traversed_in_reverse := source_traversed_in_reverse r;
     target_traversed_in_reverse := target_traversed_in_reverse r;
     alt_source_traversed_in_reverse := v;
     alt_target_traversed_in_reverse := alt_target_traversed_in_reverse r |}.

Definition set_alt_target_traversed_in_reverse (v : bool)
    (r : RawRouteData) : RawRouteData :=
  {| unpacked_path_segments := unpacked_path_segments r;
     unpacked_alternative := unpacked_alternative r;
     segment_end_coordinates := segment_end_coordinates r;
     raw_via_node_coordinates := raw_via_node_coordinates r;
     check_sum := check_sum r;
     shortest_path_length := shortest_path_length r;
     alternative_path_length := alternative_path_length r;
     source_traversed_in_reverse := source_traversed_in_reverse r;
     target_traversed_in_reverse := target_traversed_in_reverse r;
     alt_source_traversed_in_reverse := alt_source_traversed_in_reverse r;
     alt_target_traversed_in_reverse := v |}.

(** [std::vector<T>::vector()]: the empty vector. *)
Definition vector_ctor {T : Type} : list T := [].

(** [RawRouteData::RawRouteData()].  [raw] is the indeterminate content
    of the storage the object is built in.  Members are initialised in
    declaration order: the four vectors, which the member-initialiser
    list does not name, by their own default constructor, then the seven
    scalars from the list. *)
Definition RawRouteData_ctor (raw : RawRouteData) : RawRouteData :=
  raw |> set_unpacked_path_segments vector_ctor
      |> set_unpacked_alternative vector_ctor
      |> set_segment_end_coordinates vector_ctor
      |> set_raw_via_node_coordinates vector_ctor
      |> set_check_sum (numeric_limits_max unsigned)
      |> set_shortest_path_length (numeric_limits_max int)
      |> set_alternative_path_length (numeric_limits_max int)
      |> set_source_traversed_in_reverse false
      |> set_target_traversed_in_reverse false
      |> set_alt_source_traversed_in_reverse false
      |> set_alt_target_traversed_in_reverse false.

(** *** Population by the caller

    The struct has no member function besides its constructor: a caller
    populates it by assigning to its members, [r.f = v]. *)
Inductive Assignment : Type :=
| assign_unpacked_path_segments (v : list (list PathData))
| assign_unpacked_alternative (v : list PathData)
| assign_segment_end_coordinates (v : list PhantomNodes)
| assign_raw_via_node_coordinates (v : list FixedPointCoordinate)
| assign_check_sum (v : Z)
| assign_shortest_path_length (v : Z)
| assign_alternative_path_length (v : Z)
| assign_source_traversed_in_reverse (v : bool)
| assign_target_traversed_in_reverse (v : bool)
| assign_alt_source_traversed_in_reverse (v : bool)
| assign_alt_target_traversed_in_reverse (v : bool).

(** The member an assignment writes, and the value it is given. *)
Definition field_of (a : Assignment) : Field :=
  match a with
  | assign_unpacked_path_segments _ => f_unpacked_path_segments
  | assign_unpacked_alternative _ => f_unpacked_alternative
  | assign_segment_end_coordinates _ => f_segment_end_coordinates
  | assign_raw_via_node_coordinates _ => f_raw_via_node_coordinates
  | assign_check_sum _ => f_check_sum
  | assign_shortest_path_length _ => f_shortest_path_length
  | assign_alternative_path_length _ => f_alternative_path_length
  | assign_source_traversed_in_reverse _ => f_source_traversed_in_reverse
  | assign_target_traversed_in_reverse _ => f_target_traversed_in_reverse
  | assign_alt_source_traversed_in_reverse _ =>
      f_alt_source_traversed_in_reverse
  | assign_alt_target_traversed_in_reverse _ =>
      f_alt_target_traversed_in_reverse
  end.

Definition value_of (a : Assignment) : FieldValue :=
  match a with
  | assign_unpacked_path_segments v => v_legs v
  | assign_unpacked_alternative v => v_path v
  | assign_segment_end_coordinates v => v_phantoms v
  | assign_raw_via_node_coordinates v => v_coordinates v
  | assign_check_sum v => v_unsigned v
  | assign_shortest_path_length v => v_int v
  | assign_alternative_path_length v => v_int v
  | assign_source_traversed_in_reverse v => v_bool v
  | assign_target_traversed_in_reverse v => v_bool v
  | assign_alt_source_traversed_in_reverse v => v_bool v
  | assign_alt_target_traversed_in_reverse v => v_bool v
  end.

(** The assigned value is a value of the member's type. *)
Definition well_typed (a : Assignment) : Prop :=
  match a with
  | assign_check_sum v => in_range unsigned v
  | assign_shortest_path_length v => in_range int v
  | assign_alternative_path_length v => in_range int v
  | _ => True
  end.

(** Executing [r.f = v]. *)
Definition store (a : Assignment) (r : RawRouteData) : RawRouteData :=
  match a with
  | assign_unpacked_path_segments v => set_unpacked_path_segments v r
  | assign_unpacked_alternative v => set_unpacked_alternative v r
  | assign_segment_end_coordinates v => set_segment_end_coordinates v r
  | assign_raw_via_node_coordinates v => set_raw_via_node_coordinates v r
  | assign_check_sum v => set_check_sum v r
  | assign_shortest_path_length v => set_shortest_path_length v r
  | assign_alternative_path_length v => set_alternative_path_length v r
  | assign_source_traversed_in_reverse v =>
      set_source_traversed_in_reverse v r
  | assign_target_traversed_in_reverse v =>
      set_target_traversed_in_reverse v r
  | assign_alt_source_traversed_in_reverse v =>
      set_alt_source_traversed_in_reverse v r
  | assign_alt_target_traversed_in_reverse v =>
      set_alt_target_traversed_in_reverse v r
  end.

(** A caller's assignments, executed in order. *)
Definition populate (log : list Assignment) (r : RawRouteData)
    : RawRouteData :=
  fold_left (fun acc a => store a acc) log r.

(** The value of the last assignment to [f] in [log], if there is one. *)
Fixpoint last_assigned (f : Field) (log : list Assignment)
    : option FieldValue :=
  match log with
  | [] => None
  | a :: rest =>
      match last_assigned f rest with
      | Some v => Some v
      | None => if Field_eqb f (field_of a) then Some (value_of a) else None
      end
  end.

(** *** What the consumer looks at *)

(** A path has no segments across all its legs. *)
Definition no_segments (legs : list (list PathData)) : Prop :=
  concat legs = [].

(** The consumer's test for "no route": the length sentinel alone. *)
Definition no_route_found (r : RawRouteData) : bool :=
  shortest_path_length r =? numeric_limits_max int.

Definition no_alternative_found (r : RawRouteData) : bool :=
  alternative_path_length r =? numeric_limits_max int.

(** The members that describe the primary route, and those that
    describe the alternative; [check_sum] belongs to neither. *)
Definition is_primary (f : Field) : bool :=
  match f with
  | f_unpacked_path_segments | f_shortest_path_length
  | f_segment_end_coordinates | f_raw_via_node_coordinates
  | f_source_traversed_in_reverse | f_target_traversed_in_reverse => true
  | _ => false
  end.

Definition is_alternative (f : Field) : bool :=
  match f with
  | f_unpacked_alternative | f_alternative_path_length
  | f_alt_source_traversed_in_reverse
  | f_alt_target_traversed_in_reverse => true
  | _ => false
  end.

(** The scalar members hold values of their declared types. *)
Definition scalars_in_range (r : RawRouteData) : Prop :=
  in_range unsigned (check_sum r) /\
  in_range int (shortest_path_length r) /\
  in_range int (alternative_path_length r).

(** *** The producer's contract

    Modelled from the spec: the producer (the route search that fills a
    RawRouteData) is not among the sources.  Its documented contract
    pairs each length with its path: the length is the maximum sentinel
    if and only if the path has no segments, a length or path that is
    never assigned standing for "search never run".  The contract is
    stated on what the producer assigns, not on the object. *)
Definition assigns_sentinel_length (f : Field) (log : list Assignment)
    : Prop :=
  match last_assigned f log with
  | Some v => v = v_int (numeric_limits_max int)
  | None => True
  end.

Definition assigns_no_primary_segments (log : list Assignment) : Prop :=
  match last_assigned f_unpacked_path_segments log with
  | Some v => exists legs, v = v_legs legs /\ no_segments legs
  | None => True
  end.

Definition assigns_no_alternative_segments (log : list Assignment) : Prop :=
  match last_assigned f_unpacked_alternative log with
  | Some v => v = v_path []
  | None => True
  end.

Definition respects_contract (log : list Assignment) : Prop :=
  (assigns_sentinel_length f_shortest_path_length log <->
   assigns_no_primary_segments log) /\
  (assigns_sentinel_length f_alternative_path_length log <->
   assigns_no_alternative_segments log).

(** The assignments of [log] to the members selected by [keep], in
    the order of [log]. *)
Definition restrict (keep : Field -> bool) (log : list Assignment)
    : list Assignment :=
  filter (fun a => keep (field_of a)) log.

End RawRouteData.

Arguments unpacked_path_segments {PhantomNodes FixedPointCoordinate} r.
Arguments unpacked_alternative {PhantomNodes FixedPointCoordinate} r.
Arguments segment_end_coordinates {PhantomNodes FixedPointCoordinate} r.
Arguments raw_via_node_coordinates {PhantomNodes FixedPointCoordinate} r.
Arguments check_sum {PhantomNodes FixedPointCoordinate} r.
Arguments shortest_path_length {PhantomNodes FixedPointCoordinate} r.
Arguments alternative_path_length {PhantomNodes FixedPointCoordinate} r.
Arguments source_traversed_in_reverse {PhantomNodes FixedPointCoordinate} r.
Arguments target_traversed_in_reverse {PhantomNodes FixedPointCoordinate} r.
Arguments alt_source_traversed_in_reverse
  {PhantomNodes FixedPointCoordinate} r.
Arguments alt_target_traversed_in_reverse
  {PhantomNodes FixedPointCoordinate} r.
Arguments v_legs {PhantomNodes FixedPointCoordinate} v.
Arguments v_path {PhantomNodes FixedPointCoordinate} v.
Arguments v_phantoms {PhantomNodes FixedPointCoordinate} v.
Arguments v_coordinates {PhantomNodes FixedPointCoordinate} v.
Arguments v_unsigned {PhantomNodes FixedPointCoordinate} v.
Arguments v_int {PhantomNodes FixedPointCoordinate} v.
Arguments v_bool {PhantomNodes FixedPointCoordinate} v.
Arguments assign_unpacked_path_segments
  {PhantomNodes FixedPointCoordinate} v.
Arguments assign_unpacked_alternative {PhantomNodes FixedPointCoordinate} v.
Arguments assign_segment_end_coordinates
  {PhantomNodes FixedPointCoordinate} v.
Arguments assign_raw_via_node_coordinates
  {PhantomNodes FixedPointCoordinate} v.
Arguments assign_check_sum {PhantomNodes FixedPointCoordinate} v.
Arguments assign_shortest_path_length {PhantomNodes FixedPointCoordinate} v.
Arguments assign_alternative_path_length
  {PhantomNodes FixedPointCoordinate} v.
Arguments assign_source_traversed_in_reverse
  {PhantomNodes FixedPointCoordinate} v.
Arguments assign_target_traversed_in_reverse
  {PhantomNodes FixedPointCoordinate} v.
Arguments assign_alt_source_traversed_in_reverse
  {PhantomNodes FixedPointCoordinate} v.
Arguments assign_alt_target_traversed_in_reverse
  {PhantomNodes FixedPointCoordinate} v.
Arguments read {PhantomNodes FixedPointCoordinate} f r.
Arguments RawRouteData_ctor {PhantomNodes FixedPointCoordinate} raw.
Arguments field_of {PhantomNodes FixedPointCoordinate} a.
Arguments value_of {PhantomNodes FixedPointCoordinate} a.
Arguments well_typed {PhantomNodes FixedPointCoordinate} a.
Arguments store {PhantomNodes FixedPointCoordinate} a r.
Arguments populate {PhantomNodes FixedPointCoordinate} log r.
Arguments last_assigned {PhantomNodes FixedPointCoordinate} f log.
Arguments restrict {PhantomNodes FixedPointCoordinate} keep log.
Arguments no_route_found {PhantomNodes FixedPointCoordinate} r.
Arguments no_alternative_found {PhantomNodes FixedPointCoordinate} r.
Arguments scalars_in_range {PhantomNodes FixedPointCoordinate} r.
Arguments respects_contract {PhantomNodes FixedPointCoordinate} log.
Arguments assigns_sentinel_length {PhantomNodes FixedPointCoordinate} f log.
Arguments assigns_no_primary_segments
  {PhantomNodes FixedPointCoordinate} log.
Arguments assigns_no_alternative_segments
  {PhantomNodes FixedPointCoordinate} log.

(** Storage for a RawRouteData whose vectors are empty and whose scalar
    words are all zero, over one-point element types; used where an
    example needs a concrete content for the storage an object is built
    in. *)
Definition RawRouteData_zeroed : RawRouteData unit unit :=
  {| unpacked_path_segments := [];
     unpacked_alternative := [];
     segment_end_coordinates := [];
     raw_via_node_coordinates := [];
     check_sum := 0;
     shortest_path_length := 0;
     alternative_path_length := 0;
     source_traversed_in_reverse := false;
     target_traversed_in_reverse := false;
     alt_source_traversed_in_reverse := false;
     alt_target_traversed_in_reverse := false |}.

(** A producer's assignments for a single-leg route of three segments and
    total length 120, traversed in reverse at the source only, with no
    alternative. *)
Definition single_leg_route : list (Assignment unit unit) :=
  [ assign_unpacked_path_segments
      [[ PathData_ctor4 8 PathData_zeroed 10 1 0 40;
         PathData_ctor4 8 PathData_zeroed 11 1 3 50;
         PathData_ctor4 8 PathData_zeroed 12 2 15 30 ]];
    assign_segment_end_coordinates [tt];
    assign_check_sum 3735928559;
    assign_shortest_path_length 120;
    assign_source_traversed_in_reverse true;
    assign_target_traversed_in_reverse false ].

(** A producer's assignments that write every member once: the
    alternative first, then the checksum, then the primary route. *)
Definition full_population : list (Assignment unit unit) :=
  [ assign_alternative_path_length 150;
    assign_unpacked_alternative
      [ PathData_ctor4 8 PathData_zeroed 20 4 0 70;
        PathData_ctor4 8 PathData_zeroed 12 2 15 80 ];
    assign_alt_source_traversed_in_reverse false;
    assign_alt_target_traversed_in_reverse true;
    assign_check_sum 3735928559;
    assign_raw_via_node_coordinates [tt];
    assign_segment_end_coordinates [tt; tt];
    assign_unpacked_path_segments
      [[ PathData_ctor4 8 PathData_zeroed 10 1 0 40 ];
       [ PathData_ctor4 8 PathData_zeroed 11 1 3 50;
         PathData_ctor4 8 PathData_zeroed 12 2 15 30 ]];
    assign_shortest_path_length 120;
    assign_target_traversed_in_reverse false;
    assign_source_traversed_in_reverse true ].

(** * Properties *)

(** ** Integral conversion *)

Lemma modulus_pos (t : IntType) : 0 < modulus t.
Proof. unfold modulus. apply Z.pow_pos_nonneg; lia. Qed.

Lemma in_rangeb_spec (t : IntType) (v : Z) :
  in_rangeb t v = true <-> in_range t v.
Proof.
  unfold in_rangeb, in_range.
  rewrite andb_true_iff, !Z.leb_le. reflexivity.
Qed.

Example numeric_limits_max_unsigned :
  numeric_limits_max unsigned = 4294967295.
Proof. reflexivity. Qed.

Example numeric_limits_max_int : numeric_limits_max int = 2147483647.
Proof. reflexivity. Qed.

Example numeric_limits_max_unsigned_char :
  numeric_limits_max unsigned_char = 255.
Proof. reflexivity. Qed.

Example convert_unsigned_char_300 : convert unsigned_char 300 = 44.
Proof. reflexivity. Qed.

Example convert_int_wraps : convert int 2147483648 = -2147483648.
Proof. reflexivity. Qed.

Lemma unsigned_range_iff (w : N) (v : Z) :
  in_range (unsigned_of_width w) v <-> 0 <= v < 2 ^ Z.of_N w.
Proof.
  unfold in_range, numeric_limits_min, numeric_limits_max, modulus; simpl.
  lia.
Qed.

Lemma int_range_iff (v : Z) :
  in_range int v <-> -2147483648 <= v <= 2147483647.
Proof.
  unfold in_range.
  change (numeric_limits_min int) with (-2147483648).
  change (numeric_limits_max int) with 2147483647.
  reflexivity.
Qed.

Lemma convert_int_spec (v : Z) :
  convert int v = (v + 2147483648) mod 4294967296 - 2147483648.
Proof. reflexivity. Qed.

Lemma convert_unsigned_spec (w : N) (v : Z) :
  convert (unsigned_of_width w) v = v mod 2 ^ Z.of_N w.
Proof. reflexivity. Qed.

(** A conversion always lands in the target type. *)
Lemma convert_unsigned_in_range (w : N) (v : Z) :
  in_range (unsigned_of_width w) (convert (unsigned_of_width w) v).
Proof.
  apply unsigned_range_iff. rewrite convert_unsigned_spec.
  apply Z.mod_pos_bound, (modulus_pos (unsigned_of_width w)).
Qed.

Lemma convert_int_in_range (v : Z) : in_range int (convert int v).
Proof.
  apply int_range_iff. rewrite convert_int_spec.
  pose proof (Z.mod_pos_bound (v + 2147483648) 4294967296 eq_refl). lia.
Qed.

(** A value of the target type is converted to itself. *)
Lemma convert_unsigned_id (w : N) (v : Z) :
  in_range (unsigned_of_width w) v -> convert (unsigned_of_width w) v = v.
Proof.
  intros H. apply unsigned_range_iff in H.
  rewrite convert_unsigned_spec. apply Z.mod_small. exact H.
Qed.

Lemma convert_int_id (v : Z) : in_range int v -> convert int v = v.
Proof.
  intros H. pose proof (proj1 (int_range_iff v) H) as B.
  rewrite convert_int_spec, Z.mod_small; lia.
Qed.

Lemma max_unsigned_in_range (w : N) :
  in_range (unsigned_of_width w) (numeric_limits_max (unsigned_of_width w)).
Proof.
  apply unsigned_range_iff.
  pose proof (modulus_pos (unsigned_of_width w)) as H.
  unfold numeric_limits_max, modulus in *; simpl in *. lia.
Qed.

Lemma max_int_in_range : in_range int (numeric_limits_max int).
Proof.
  apply int_range_iff. change (numeric_limits_max int) with 2147483647. lia.
Qed.

(** Two unsigned types have the same maximum exactly when they have the
    same width. *)
Lemma max_unsigned_inj (w1 w2 : N) :
  numeric_limits_max (unsigned_of_width w1) =
  numeric_limits_max (unsigned_of_width w2) <-> w1 = w2.
Proof.
  split; [| intros ->; reflexivity].
  unfold numeric_limits_max, modulus; simpl. intros H.
  assert (E : 2 ^ Z.of_N w1 = 2 ^ Z.of_N w2) by lia.
  apply Z.pow_inj_r in E; lia.
Qed.

(** ** PathData *)

Section PathDataFacts.

Variable w : N.

(** The members of a default-constructed object, whatever the storage
    held before. *)
Lemma PathData_ctor_fields (raw : PathData) :
  PathData_ctor w raw =
  {| node := numeric_limits_max unsigned;
     name_id := numeric_limits_max unsigned;
     segment_duration := numeric_limits_max unsigned;
     turn_instruction := numeric_limits_max (TurnInstruction w) |}.
Proof.
  unfold PathData_ctor, init_node, init_name_id, init_segment_duration,
    init_turn_instruction; cbn [node name_id segment_duration turn_instruction].
  rewrite !(convert_unsigned_id 32) by apply max_unsigned_in_range.
  unfold TurnInstruction.
  rewrite convert_unsigned_id by apply max_unsigned_in_range.
  reflexivity.
Qed.

(** The members of an object built from four arguments, whatever the
    storage held before. *)
Lemma PathData_ctor4_fields (raw : PathData) (no na tu dur : Z) :
  PathData_ctor4 w raw no na tu dur =
  {| node := convert NodeID no;
     name_id := convert unsigned na;
     segment_duration := convert unsigned dur;
     turn_instruction := convert (TurnInstruction w) tu |}.
Proof. reflexivity. Qed.

Lemma PathData_ctor_wf (raw : PathData) : PathData_wf w (PathData_ctor w raw).
Proof.
  rewrite PathData_ctor_fields. unfold PathData_wf; cbn.
  repeat split; try apply (max_unsigned_in_range 32);
    apply (max_unsigned_in_range w).
Qed.

Lemma PathData_ctor4_wf (raw : PathData) (no na tu dur : Z) :
  PathData_wf w (PathData_ctor4 w raw no na tu dur).
Proof.
  rewrite PathData_ctor4_fields. unfold PathData_wf; cbn.
  repeat split; try apply (convert_unsigned_in_range 32);
    apply (convert_unsigned_in_range w).
Qed.

Lemma PathData_ctor_unset (raw : PathData) :
  PathData_unset w (PathData_ctor w raw).
Proof. rewrite PathData_ctor_fields. repeat split. Qed.

End PathDataFacts.

(** Closed range side conditions, by evaluation. *)
Ltac range_by_evaluation :=
  repeat apply conj;
  match goal with
  | |- in_range _ _ => apply in_rangeb_spec; vm_compute; reflexivity
  | |- (_ <= _)%Z => vm_compute; intro; discriminate
  end.

Example PathData_ctor_with_unsigned_char :
  PathData_ctor 8 PathData_zeroed =
  {| node := 4294967295; name_id := 4294967295;
     segment_duration := 4294967295; turn_instruction := 255 |}.
Proof. reflexivity. Qed.

Example PathData_ctor4_with_unsigned_char :
  PathData_ctor4 8 PathData_zeroed 10 1 3 40 =
  {| node := 10; name_id := 1; segment_duration := 40;
     turn_instruction := 3 |}.
Proof. reflexivity. Qed.

(** C1 (as stated, refuted): with the 8-bit [TurnInstruction], the
    four-argument constructor called with arguments [(1, 2, 256, 3)], all
    within their parameter types, leaves [turn_instruction] at 0, not at
    the 256 that was passed for it. *)
Lemma PathData_ctor4_coerces_turn_instruction :
  let p := PathData_ctor4 8 PathData_zeroed 1 2 256 3 in
  (in_range NodeID 1 /\ in_range unsigned 2 /\
   in_range unsigned 256 /\ in_range unsigned 3) /\
  turn_instruction p = 0 /\ turn_instruction p <> 256.
Proof.
  cbv zeta. split; [| split; [reflexivity | discriminate]].
  range_by_evaluation.
Qed.

(** C1 (amended): for arguments within their parameter types, the
    four-argument constructor stores [no] in [node], [na] in [name_id] and
    [dur] in [segment_duration] unchanged, and stores in
    [turn_instruction] the argument [tu] converted to [TurnInstruction],
    that is [tu] modulo [2 ^ w]; this is [tu] itself exactly when [tu] is
    a value of [TurnInstruction]. *)
Theorem PathData_ctor4_stores_arguments (w : N) (raw : PathData)
    (no na tu dur : Z) :
  in_range NodeID no -> in_range unsigned na ->
  in_range unsigned tu -> in_range unsigned dur ->
  let p := PathData_ctor4 w raw no na tu dur in
  node p = no /\ name_id p = na /\ segment_duration p = dur /\
  turn_instruction p = tu mod 2 ^ Z.of_N w /\
  (turn_instruction p = tu <-> in_range (TurnInstruction w) tu).
Proof.
  intros Hno Hna Htu Hdur p. subst p. rewrite PathData_ctor4_fields.
  cbn [node name_id segment_duration turn_instruction].
  repeat apply conj.
  - apply (convert_unsigned_id 32). exact Hno.
  - apply (convert_unsigned_id 32). exact Hna.
  - apply (convert_unsigned_id 32). exact Hdur.
  - reflexivity.
  - intros E. rewrite <- E. apply convert_unsigned_in_range.
  - apply convert_unsigned_id.
Qed.

(** C1 (amended), at a concrete call with the 8-bit [TurnInstruction]. *)
Lemma PathData_ctor4_stores_arguments_witness :
  let p := PathData_ctor4 8 PathData_zeroed 7 11 300 42 in
  node p = 7 /\ name_id p = 11 /\ segment_duration p = 42 /\
  turn_instruction p = 300 mod 2 ^ Z.of_N 8 /\
  (turn_instruction p = 300 <-> in_range (TurnInstruction 8) 300).
Proof.
  apply (PathData_ctor4_stores_arguments 8 PathData_zeroed 7 11 300 42);
    range_by_evaluation.
Defined.

(** C2 (as stated, refuted): with the 8-bit [TurnInstruction], a
    default-constructed object has [node] at 4294967295 and
    [turn_instruction] at 255: the chain of equalities breaks at its last
    link. *)
Lemma PathData_ctor_sentinels_differ :
  let p := PathData_ctor 8 PathData_zeroed in
  node p = 4294967295 /\ turn_instruction p = 255 /\
  node p <> turn_instruction p.
Proof. cbv zeta. repeat split. discriminate. Qed.

(** C2 (amended): every member of a default-constructed object holds the
    maximum of its own type; [node], [name_id] and [segment_duration]
    are equal to one another, and [turn_instruction] equals them exactly
    when [TurnInstruction] is as wide as [unsigned]. *)
Theorem PathData_ctor_sentinels (w : N) (raw : PathData) :
  let p := PathData_ctor w raw in
  PathData_unset w p /\
  node p = name_id p /\ name_id p = segment_duration p /\
  (segment_duration p = turn_instruction p <-> w = 32%N).
Proof.
  cbv zeta. split; [apply PathData_ctor_unset |].
  rewrite PathData_ctor_fields.
  cbn [node name_id segment_duration turn_instruction].
  repeat split; intros H.
  - symmetry. apply max_unsigned_inj. exact H.
  - subst w. reflexivity.
Qed.

(** C6: the struct is built in two ways only.  The default constructor
    leaves all four members unset, whatever the storage held; the
    four-argument constructor leaves all four members set from the
    arguments of that very call, whatever the storage held; and an object
    obtained from a constructor is the result of one of these two calls,
    so all of its members are unset together or set together from one
    call's arguments, none keeping what the storage held before. *)
Theorem PathData_constructed_unset_or_set (w : N) :
  (forall raw,
     PathData_unset w (PathData_ctor w raw) /\
     PathData_wf w (PathData_ctor w raw)) /\
  (forall raw no na tu dur,
     PathData_set_from w no na tu dur (PathData_ctor4 w raw no na tu dur) /\
     PathData_wf w (PathData_ctor4 w raw no na tu dur)) /\
  (forall p,
     PathData_constructed w p ->
     (PathData_unset w p /\ forall raw', p = PathData_ctor w raw') \/
     (exists no na tu dur,
        (in_range NodeID no /\ in_range unsigned na /\
         in_range unsigned tu /\ in_range unsigned dur) /\
        PathData_set_from w no na tu dur p /\
        (node p = no /\ name_id p = na /\ segment_duration p = dur) /\
        forall raw', p = PathData_ctor4 w raw' no na tu dur)).
Proof.
  split; [| split].
  - intros raw. split; [apply PathData_ctor_unset | apply PathData_ctor_wf].
  - intros raw no na tu dur. split; [| apply PathData_ctor4_wf].
    rewrite PathData_ctor4_fields. repeat split.
  - intros p [raw | raw no na tu dur Hno Hna Htu Hdur].
    + left. split; [apply PathData_ctor_unset |].
      intros raw'. rewrite !PathData_ctor_fields. reflexivity.
    + right. exists no, na, tu, dur.
      split; [exact (conj Hno (conj Hna (conj Htu Hdur))) |].
      split; [rewrite PathData_ctor4_fields; repeat split |].
      split.
      * rewrite PathData_ctor4_fields.
        cbn [node name_id segment_duration].
        rewrite !(convert_unsigned_id 32) by assumption.
        repeat split.
      * intros raw'. rewrite !PathData_ctor4_fields. reflexivity.
Qed.

(** C6, at concrete calls of the two constructors with the 8-bit
    [TurnInstruction]. *)
Lemma PathData_constructed_unset_or_set_witness :
  let p := PathData_ctor4 8 PathData_zeroed 7 11 3 42 in
  PathData_unset 8 (PathData_ctor 8 PathData_zeroed) /\
  PathData_set_from 8 7 11 3 42 p /\
  (PathData_constructed 8 p ->
   (PathData_unset 8 p /\ forall raw', p = PathData_ctor 8 raw') \/
   (exists no na tu dur,
      (in_range NodeID no /\ in_range unsigned na /\
       in_range unsigned tu /\ in_range unsigned dur) /\
      PathData_set_from 8 no na tu dur p /\
      (node p = no /\ name_id p = na /\ segment_duration p = dur) /\
      forall raw', p = PathData_ctor4 8 raw' no na tu dur)).
Proof.
  pose proof (PathData_constructed_unset_or_set 8) as (H1 & H2 & H3).
  cbv zeta. split; [apply H1 |]. split; [apply H2 |]. apply H3.
Defined.

(** The four-argument call of the example is not unset: its members are
    the arguments. *)
Example PathData_ctor4_example_is_set :
  let p := PathData_ctor4 8 PathData_zeroed 7 11 3 42 in
  ~ PathData_unset 8 p /\
  p = {| node := 7; name_id := 11; segment_duration := 42;
         turn_instruction := 3 |}.
Proof.
  cbv zeta. split; [| reflexivity].
  intros (H & _). discriminate H.
Qed.

(** What a partially populated object would be: an initialiser list that
    leaves [turn_instruction] out keeps in it what the storage held. *)
Remark partial_initialisation_keeps_storage (raw : PathData) :
  turn_instruction
    (raw |> init_node 1 |> init_name_id 2 |> init_segment_duration 3) =
  turn_instruction raw.
Proof. reflexivity. Qed.

(** C9: for every argument [tu] of the parameter type [unsigned], the
    four-argument constructor stores [tu] modulo [2 ^ w] in
    [turn_instruction], a value of [TurnInstruction]; the stored value is
    [tu] itself only when [tu] is below [2 ^ w], and an argument at or
    above [2 ^ w] is stored truncated. *)
Theorem PathData_ctor4_truncates_turn_instruction (w : N) (raw : PathData)
    (no na tu dur : Z) :
  in_range unsigned tu ->
  let p := PathData_ctor4 w raw no na tu dur in
  turn_instruction p = tu mod 2 ^ Z.of_N w /\
  in_range (TurnInstruction w) (turn_instruction p) /\
  (turn_instruction p = tu <-> tu < 2 ^ Z.of_N w).
Proof.
  intros Htu p. subst p. rewrite PathData_ctor4_fields.
  cbn [turn_instruction]. unfold TurnInstruction.
  pose proof (proj1 (unsigned_range_iff 32 tu) Htu) as [Hlo _].
  pose proof (convert_unsigned_in_range w tu) as Hin.
  split; [reflexivity |]. split; [exact Hin |].
  split.
  - intros E. rewrite E in Hin. apply unsigned_range_iff in Hin. lia.
  - intros Hlt. apply convert_unsigned_id, unsigned_range_iff. lia.
Qed.

(** C9, at a concrete call: with the 8-bit [TurnInstruction], the argument
    300 is stored as 44. *)
Lemma PathData_ctor4_truncates_turn_instruction_witness :
  let p := PathData_ctor4 8 PathData_zeroed 7 11 300 42 in
  in_range unsigned 300 /\
  turn_instruction p = 44 /\
  in_range (TurnInstruction 8) (turn_instruction p) /\
  (turn_instruction p = 300 <-> 300 < 2 ^ Z.of_N 8).
Proof.
  cbv zeta. split; [range_by_evaluation |].
  apply (PathData_ctor4_truncates_turn_instruction 8 PathData_zeroed 7 11 300 42).
  range_by_evaluation.
Defined.

(** The members' values alone do not tell the two constructors apart:
    called with the sentinels, the four-argument constructor builds the
    object the default constructor builds. *)
Remark PathData_ctor4_at_sentinels (w : N) (raw raw' : PathData) :
  PathData_ctor4 w raw (numeric_limits_max NodeID)
    (numeric_limits_max unsigned) (numeric_limits_max (TurnInstruction w))
    (numeric_limits_max unsigned) = PathData_ctor w raw'.
Proof. reflexivity. Qed.

(** ** RawRouteData *)

Section RawRouteDataFacts.

Context {PhantomNodes FixedPointCoordinate : Type}.

Abbreviation Route := (RawRouteData PhantomNodes FixedPointCoordinate).
Abbreviation Assign := (Assignment PhantomNodes FixedPointCoordinate).

Lemma Field_eqb_eq (f g : Field) : Field_eqb f g = true <-> f = g.
Proof. split; [destruct f, g; (reflexivity || discriminate) | intros ->; destruct g; reflexivity]. Qed.

Lemma Field_eqb_refl (f : Field) : Field_eqb f f = true.
Proof. apply Field_eqb_eq. reflexivity. Qed.

Lemma Field_eqb_neq (f g : Field) : Field_eqb f g = false <-> f <> g.
Proof.
  rewrite <- Field_eqb_eq. destruct (Field_eqb f g); split; congruence.
Qed.

(** The members of a default-constructed object, whatever the storage
    held before. *)
Lemma RawRouteData_ctor_fields (raw : Route) :
  RawRouteData_ctor raw =
  {| unpacked_path_segments := [];
     unpacked_alternative := [];
     segment_end_coordinates := [];
     raw_via_node_coordinates := [];
     check_sum := numeric_limits_max unsigned;
     shortest_path_length := numeric_limits_max int;
     alternative_path_length := numeric_limits_max int;
     source_traversed_in_reverse := false;
     target_traversed_in_reverse := false;
     alt_source_traversed_in_reverse := false;
     alt_target_traversed_in_reverse := false |}.
Proof. reflexivity. Qed.

(** An assignment of a value of the member's type stores that value. *)
Lemma read_store_same (a : Assign) (r : Route) :
  well_typed a -> read (field_of a) (store a r) = value_of a.
Proof.
  destruct a; cbn; intros H; try reflexivity; f_equal.
  - apply (convert_unsigned_id 32). exact H.
  - apply convert_int_id. exact H.
  - apply convert_int_id. exact H.
Qed.

(** An assignment leaves every other member as it was. *)
Lemma read_store_other (f : Field) (a : Assign) (r : Route) :
  f <> field_of a -> read f (store a r) = read f r.
Proof. destruct a, f; cbn; intros H; try reflexivity; congruence. Qed.

Lemma populate_cons (a : Assign) (log : list Assign) (r : Route) :
  populate (a :: log) r = populate log (store a r).
Proof. reflexivity. Qed.

(** After a caller's assignments, a member holds the last value assigned
    to it, or what it held before when nothing was assigned to it. *)
Lemma read_populate (f : Field) (log : list Assign) :
  Forall well_typed log ->
  forall r : Route,
    read f (populate log r) =
    match last_assigned f log with
    | Some v => v
    | None => read f r
    end.
Proof.
  induction 1 as [| a log Ha Hlog IH]; intros r; [reflexivity |].
  rewrite populate_cons, IH. cbn [last_assigned].
  destruct (last_assigned f log); [reflexivity |].
  destruct (Field_eqb f (field_of a)) eqn:E.
  - apply Field_eqb_eq in E. subst f. apply read_store_same, Ha.
  - apply Field_eqb_neq in E. apply read_store_other, E.
Qed.

Lemma last_assigned_none (f : Field) (log : list Assign) :
  ~ In f (map field_of log) -> last_assigned f log = None.
Proof.
  induction log as [| a log IH]; cbn; intros H; [reflexivity |].
  rewrite IH by tauto.
  destruct (Field_eqb f (field_of a)) eqn:E; [| reflexivity].
  apply Field_eqb_eq in E. subst f. tauto.
Qed.

Lemma last_assigned_unique (a : Assign) (log : list Assign) :
  NoDup (map field_of log) -> In a log ->
  last_assigned (field_of a) log = Some (value_of a).
Proof.
  induction log as [| b log IH]; cbn; intros Hnd Hin; [contradiction |].
  inversion Hnd as [| ? ? Hnot Hnd']; subst.
  destruct Hin as [-> | Hin].
  - rewrite last_assigned_none by exact Hnot.
    rewrite Field_eqb_refl. reflexivity.
  - rewrite IH by assumption. reflexivity.
Qed.

Lemma restrict_well_typed (keep : Field -> bool) (log : list Assign) :
  Forall well_typed log -> Forall well_typed (restrict keep log).
Proof.
  intros H. apply Forall_forall. intros a Ha.
  apply filter_In in Ha. destruct Ha as [Ha _].
  revert a Ha. apply Forall_forall. exact H.
Qed.

(** Dropping the assignments to other members does not change what was
    last assigned to a member that is kept. *)
Lemma last_assigned_restrict (keep : Field -> bool) (f : Field)
    (log : list Assign) :
  keep f = true -> last_assigned f (restrict keep log) = last_assigned f log.
Proof.
  intros Hf. induction log as [| a log IH]; [reflexivity |].
  cbn [restrict filter last_assigned]. fold (restrict keep log).
  destruct (keep (field_of a)) eqn:Ka.
  - cbn [last_assigned]. rewrite IH. reflexivity.
  - rewrite IH.
    assert (E : Field_eqb f (field_of a) = false)
      by (apply Field_eqb_neq; intros ->; congruence).
    rewrite E. destruct (last_assigned f log); reflexivity.
Qed.

Lemma scalars_in_range_ctor (raw : Route) :
  scalars_in_range (RawRouteData_ctor raw).
Proof.
  rewrite RawRouteData_ctor_fields. unfold scalars_in_range; cbn.
  split; [apply (max_unsigned_in_range 32) |].
  split; apply max_int_in_range.
Qed.

Lemma scalars_in_range_store (a : Assign) (r : Route) :
  scalars_in_range r -> scalars_in_range (store a r).
Proof.
  unfold scalars_in_range. intros (Hc & Hs & Ha).
  destruct a; cbn; refine (conj _ (conj _ _));
    first [ assumption
          | apply (convert_unsigned_in_range 32)
          | apply convert_int_in_range ].
Qed.

(** C3: a default-constructed RawRouteData has both path lengths and the
    checksum at the maximum of their types, its four reversal flags
    false and its four vectors empty. *)
Theorem RawRouteData_ctor_empty_state (raw : Route) :
  let r := RawRouteData_ctor raw in
  (shortest_path_length r = numeric_limits_max int /\
   alternative_path_length r = numeric_limits_max int /\
   check_sum r = numeric_limits_max unsigned) /\
  (source_traversed_in_reverse r = false /\
   target_traversed_in_reverse r = false /\
   alt_source_traversed_in_reverse r = false /\
   alt_target_traversed_in_reverse r = false) /\
  (unpacked_path_segments r = [] /\
   unpacked_alternative r = [] /\
   segment_end_coordinates r = [] /\
   raw_via_node_coordinates r = []).
Proof. cbv zeta. rewrite RawRouteData_ctor_fields. cbn. repeat split. Qed.

(** The pairing of the primary length with the primary path, from the
    producer's assignments to the object. *)
Lemma primary_pairing (raw : Route) (log : list Assign) :
  Forall well_typed log ->
  (assigns_sentinel_length f_shortest_path_length log <->
   assigns_no_primary_segments log) ->
  let r := populate log (RawRouteData_ctor raw) in
  shortest_path_length r = numeric_limits_max int <->
  no_segments (unpacked_path_segments r).
Proof.
  intros Hwt Hc r.
  pose proof (read_populate f_shortest_path_length log Hwt
                (RawRouteData_ctor raw)) as Hlen.
  pose proof (read_populate f_unpacked_path_segments log Hwt
                (RawRouteData_ctor raw)) as Hseg.
  fold r in Hlen, Hseg.
  unfold assigns_sentinel_length, assigns_no_primary_segments in Hc.
  cbn [read] in Hlen, Hseg.
  destruct (last_assigned f_shortest_path_length log) as [vl |];
    destruct (last_assigned f_unpacked_path_segments log) as [vs |];
    subst; cbn [read RawRouteData_ctor] in *.
  - split.
    + intros E. rewrite E in Hc.
      destruct (proj1 Hc eq_refl) as (legs & El & Hn).
      injection El as <-. exact Hn.
    + intros Hn.
      assert (E : v_int (PhantomNodes:=PhantomNodes)
                    (FixedPointCoordinate:=FixedPointCoordinate)
                    (shortest_path_length r) =
                  v_int (numeric_limits_max int))
        by (apply Hc; eexists; split; [reflexivity | exact Hn]).
      injection E as E. exact E.
  - injection Hseg as Hseg. rewrite Hseg. split; [reflexivity |].
    intros _.
    assert (E : v_int (PhantomNodes:=PhantomNodes)
                  (FixedPointCoordinate:=FixedPointCoordinate)
                  (shortest_path_length r) =
                v_int (numeric_limits_max int)) by (apply Hc; exact I).
    injection E as E. exact E.
  - injection Hlen as Hlen. rewrite Hlen. split; [| reflexivity].
    intros _. destruct (proj1 Hc I) as (legs & El & Hn).
    injection El as <-. exact Hn.
  - injection Hlen as Hlen. injection Hseg as Hseg.
    rewrite Hlen, Hseg. split; reflexivity.
Qed.

Lemma alternative_pairing (raw : Route) (log : list Assign) :
  Forall well_typed log ->
  (assigns_sentinel_length f_alternative_path_length log <->
   assigns_no_alternative_segments log) ->
  let r := populate log (RawRouteData_ctor raw) in
  alternative_path_length r = numeric_limits_max int <->
  unpacked_alternative r = [].
Proof.
  intros Hwt Hc r.
  pose proof (read_populate f_alternative_path_length log Hwt
                (RawRouteData_ctor raw)) as Hlen.
  pose proof (read_populate f_unpacked_alternative log Hwt
                (RawRouteData_ctor raw)) as Hseg.
  fold r in Hlen, Hseg.
  unfold assigns_sentinel_length, assigns_no_alternative_segments in Hc.
  cbn [read] in Hlen, Hseg.
  destruct (last_assigned f_alternative_path_length log) as [vl |];
    destruct (last_assigned f_unpacked_alternative log) as [vs |];
    subst; cbn [read RawRouteData_ctor] in *.
  - split.
    + intros E. rewrite E in Hc.
      pose proof (proj1 Hc eq_refl) as El. injection El as El. exact El.
    + intros Hn. rewrite Hn in Hc.
      pose proof (proj2 Hc eq_refl) as E. injection E as E. exact E.
  - injection Hseg as Hseg. rewrite Hseg. split; [reflexivity |].
    intros _. pose proof (proj2 Hc I) as E. injection E as E. exact E.
  - injection Hlen as Hlen. rewrite Hlen. split; [| reflexivity].
    intros _. pose proof (proj1 Hc I) as El. injection El as El. exact El.
  - injection Hlen as Hlen. injection Hseg as Hseg.
    rewrite Hlen, Hseg. split; reflexivity.
Qed.

(** C4: when the producer's assignments are of the members' types and
    respect the contract, the populated object has its primary length at
    the maximum sentinel exactly when its primary path has no segments
    across all legs, and likewise for the alternative; the consumer's
    test of the length sentinel alone therefore decides "no route". *)
Theorem length_sentinel_pairs_with_empty_path (raw : Route)
    (log : list Assign) :
  Forall well_typed log -> respects_contract log ->
  let r := populate log (RawRouteData_ctor raw) in
  (shortest_path_length r = numeric_limits_max int <->
   no_segments (unpacked_path_segments r)) /\
  (alternative_path_length r = numeric_limits_max int <->
   unpacked_alternative r = []) /\
  (no_route_found r = true <-> no_segments (unpacked_path_segments r)) /\
  (no_alternative_found r = true <-> unpacked_alternative r = []).
Proof.
  intros Hwt [Hp Ha]. cbv zeta.
  pose proof (primary_pairing raw log Hwt Hp) as P.
  pose proof (alternative_pairing raw log Hwt Ha) as A.
  cbv zeta in P, A. unfold no_route_found, no_alternative_found.
  rewrite !Z.eqb_eq. tauto.
Qed.

(** The struct itself does not keep the pairing: one assignment of a
    length to a default-constructed object breaks it. *)
Remark pairing_not_enforced (raw : Route) :
  let r := populate [assign_shortest_path_length 0] (RawRouteData_ctor raw) in
  shortest_path_length r <> numeric_limits_max int /\
  no_segments (unpacked_path_segments r).
Proof. cbv zeta. split; [discriminate | reflexivity]. Qed.

(** C5: after construction and any sequence of assignments that writes
    each member at most once with a value of the member's type, every
    member that was written reads back the value written, and every
    member that was not written reads as the constructor left it. *)
Theorem populate_round_trip (raw : Route) (log : list Assign) :
  Forall well_typed log -> NoDup (map field_of log) ->
  let r := populate log (RawRouteData_ctor raw) in
  (forall a, In a log -> read (field_of a) r = value_of a) /\
  (forall f, ~ In f (map field_of log) ->
             read f r = read f (RawRouteData_ctor raw)).
Proof.
  intros Hwt Hnd r. subst r. split.
  - intros a Ha. rewrite read_populate by exact Hwt.
    rewrite (last_assigned_unique a log Hnd Ha). reflexivity.
  - intros f Hf. rewrite read_populate by exact Hwt.
    rewrite (last_assigned_none f log Hf). reflexivity.
Qed.

(** C7: an assignment to a member of the alternative route leaves every
    member of the primary route as it was, and conversely; after any
    sequence of assignments the primary members read as if the
    assignments to the alternative had not been made, and conversely;
    and when nothing is assigned to the alternative, the object reports
    no alternative (length at the sentinel, path empty) while each
    primary member holds what was last assigned to it. *)
Theorem primary_alternative_independent (raw r : Route)
    (log : list Assign) (a : Assign) (f : Field) :
  (is_alternative (field_of a) = true -> is_primary f = true ->
   read f (store a r) = read f r) /\
  (is_primary (field_of a) = true -> is_alternative f = true ->
   read f (store a r) = read f r) /\
  (Forall well_typed log -> is_primary f = true ->
   read f (populate log r) =
   read f (populate (restrict (fun g => negb (is_alternative g)) log) r)) /\
  (Forall well_typed log -> is_alternative f = true ->
   read f (populate log r) =
   read f (populate (restrict (fun g => negb (is_primary g)) log) r)) /\
  (Forall well_typed log ->
   (forall b, In b log -> is_alternative (field_of b) = false) ->
   let r' := populate log (RawRouteData_ctor raw) in
   alternative_path_length r' = numeric_limits_max int /\
   unpacked_alternative r' = [] /\
   (is_primary f = true ->
    read f r' = match last_assigned f log with
                | Some v => v
                | None => read f (RawRouteData_ctor raw)
                end)).
Proof.
  repeat apply conj.
  - intros Ha Hf. apply read_store_other. intros ->.
    destruct a; cbn in Ha, Hf; discriminate.
  - intros Ha Hf. apply read_store_other. intros ->.
    destruct a; cbn in Ha, Hf; discriminate.
  - intros Hwt Hf.
    rewrite !read_populate by (try apply restrict_well_typed; exact Hwt).
    rewrite last_assigned_restrict; [reflexivity |].
    destruct f; cbn in Hf |- *; (reflexivity || discriminate).
  - intros Hwt Hf.
    rewrite !read_populate by (try apply restrict_well_typed; exact Hwt).
    rewrite last_assigned_restrict; [reflexivity |].
    destruct f; cbn in Hf |- *; (reflexivity || discriminate).
  - intros Hwt Hno r'. subst r'.
    assert (None_alt : forall g, is_alternative g = true ->
                                 last_assigned g log = None).
    { intros g Hg. apply last_assigned_none. intros Hin.
      apply in_map_iff in Hin. destruct Hin as (b & <- & Hb).
      rewrite (Hno b Hb) in Hg. discriminate. }
    pose proof (read_populate f_alternative_path_length log Hwt
                  (RawRouteData_ctor raw)) as Hlen.
    pose proof (read_populate f_unpacked_alternative log Hwt
                  (RawRouteData_ctor raw)) as Hseg.
    rewrite None_alt in Hlen, Hseg by reflexivity.
    cbn [read] in Hlen, Hseg.
    injection Hlen as Hlen. injection Hseg as Hseg.
    repeat apply conj.
    + exact Hlen.
    + exact Hseg.
    + intros _. apply read_populate, Hwt.
Qed.

(** C8: the operations are functions defined on every input, and their
    results are objects of the declared types: both PathData constructors
    yield members within their types for every content of the storage and
    every argument; the RawRouteData constructor yields scalars within
    their types and encodes "no route" as data, the length sentinel with
    an empty path; and every assignment keeps the scalars within their
    types. *)
Theorem operations_always_succeed (w : N) (raw : Route) :
  (forall raw_p, PathData_wf w (PathData_ctor w raw_p)) /\
  (forall raw_p no na tu dur,
     PathData_wf w (PathData_ctor4 w raw_p no na tu dur)) /\
  (scalars_in_range (RawRouteData_ctor raw) /\
   no_route_found (RawRouteData_ctor raw) = true /\
   no_segments (unpacked_path_segments (RawRouteData_ctor raw)) /\
   no_alternative_found (RawRouteData_ctor raw) = true /\
   unpacked_alternative (RawRouteData_ctor raw) = []) /\
  (forall (a : Assign) r,
     scalars_in_range r -> scalars_in_range (store a r)).
Proof.
  split; [apply PathData_ctor_wf |].
  split; [apply PathData_ctor4_wf |].
  split; [| intros a r; apply scalars_in_range_store].
  split; [apply scalars_in_range_ctor |].
  repeat split.
Qed.

(** C10: each constructor's result depends on nothing but its arguments:
    not on what the storage held before, so that two invocations with the
    same arguments build the same object. *)
Theorem construction_deterministic (w : N) :
  (forall raw raw' no na tu dur,
     PathData_ctor4 w raw no na tu dur = PathData_ctor4 w raw' no na tu dur) /\
  (forall raw raw', PathData_ctor w raw = PathData_ctor w raw') /\
  (forall raw raw' : Route, RawRouteData_ctor raw = RawRouteData_ctor raw').
Proof.
  split; [| split].
  - intros. rewrite !PathData_ctor4_fields. reflexivity.
  - intros. rewrite !PathData_ctor_fields. reflexivity.
  - intros. rewrite !RawRouteData_ctor_fields. reflexivity.
Qed.

End RawRouteDataFacts.

(** ** The claims at concrete inputs *)

(** The single-leg route, read back: one leg of three segments, reversed
    at the source only, no alternative. *)
Example single_leg_route_populated :
  let r := populate single_leg_route (RawRouteData_ctor RawRouteData_zeroed) in
  map (@length PathData) (unpacked_path_segments r) = [3%nat] /\
  map node (concat (unpacked_path_segments r)) = [10; 11; 12] /\
  shortest_path_length r = 120 /\
  source_traversed_in_reverse r = true /\
  target_traversed_in_reverse r = false /\
  no_route_found r = false /\
  no_alternative_found r = true /\
  unpacked_alternative r = [] /\
  check_sum r = 3735928559.
Proof. cbv zeta. repeat split. Qed.

Ltac well_typed_by_evaluation :=
  repeat (apply Forall_cons || apply Forall_nil);
  cbn [well_typed]; try exact I; range_by_evaluation.

Lemma single_leg_route_well_typed : Forall well_typed single_leg_route.
Proof. unfold single_leg_route. well_typed_by_evaluation. Defined.

Lemma single_leg_route_respects_contract :
  respects_contract single_leg_route.
Proof.
  split; split; intros H; try exact I.
  - discriminate H.
  - destruct H as (legs & E & Hn). injection E as <-. discriminate Hn.
Defined.

(** C4, for the single-leg route. *)
Lemma length_sentinel_pairs_with_empty_path_witness :
  let r := populate single_leg_route (RawRouteData_ctor RawRouteData_zeroed) in
  (Forall well_typed single_leg_route /\
   respects_contract single_leg_route) /\
  (shortest_path_length r = numeric_limits_max int <->
   no_segments (unpacked_path_segments r)) /\
  (alternative_path_length r = numeric_limits_max int <->
   unpacked_alternative r = []) /\
  (no_route_found r = true <-> no_segments (unpacked_path_segments r)) /\
  (no_alternative_found r = true <-> unpacked_alternative r = []).
Proof.
  split.
  - split; [exact single_leg_route_well_typed
           | exact single_leg_route_respects_contract].
  - exact (length_sentinel_pairs_with_empty_path RawRouteData_zeroed
             single_leg_route single_leg_route_well_typed
             single_leg_route_respects_contract).
Defined.

Lemma full_population_well_typed : Forall well_typed full_population.
Proof. unfold full_population. well_typed_by_evaluation. Defined.

Lemma full_population_writes_once : NoDup (map field_of full_population).
Proof.
  cbn. repeat (apply NoDup_cons; [cbn; intuition discriminate |]).
  apply NoDup_nil.
Defined.

(** C5, for the population that writes every member once. *)
Lemma populate_round_trip_witness :
  let r := populate full_population (RawRouteData_ctor RawRouteData_zeroed) in
  (Forall well_typed full_population /\
   NoDup (map field_of full_population)) /\
  (forall a, In a full_population -> read (field_of a) r = value_of a) /\
  (forall f, ~ In f (map field_of full_population) ->
             read f r = read f (RawRouteData_ctor RawRouteData_zeroed)).
Proof.
  split.
  - split; [exact full_population_well_typed
           | exact full_population_writes_once].
  - exact (populate_round_trip RawRouteData_zeroed full_population
             full_population_well_typed full_population_writes_once).
Defined.

(** C7, for an assignment to the alternative length read through the
    primary length, and for the single-leg route, which assigns nothing
    to the alternative. *)
Lemma primary_alternative_independent_witness :
  let r' := populate single_leg_route (RawRouteData_ctor RawRouteData_zeroed) in
  read f_shortest_path_length
    (store (assign_alternative_path_length 77) RawRouteData_zeroed) =
  read f_shortest_path_length RawRouteData_zeroed /\
  alternative_path_length r' = numeric_limits_max int /\
  unpacked_alternative r' = [] /\
  (is_primary f_shortest_path_length = true ->
   read f_shortest_path_length r' =
   match last_assigned f_shortest_path_length single_leg_route with
   | Some v => v
   | None => read f_shortest_path_length (RawRouteData_ctor RawRouteData_zeroed)
   end).
Proof.
  pose proof (primary_alternative_independent RawRouteData_zeroed
                RawRouteData_zeroed single_leg_route
                (assign_alternative_path_length 77)
                f_shortest_path_length) as (H1 & _ & _ & _ & H5).
  split.
  - exact (H1 eq_refl eq_refl).
  - apply (H5 single_leg_route_well_typed).
    intros b Hb.
    repeat (destruct Hb as [<- | Hb]; [reflexivity |]). destruct Hb.
Defined.

(** C8, for the 8-bit [TurnInstruction]: a constructor call with an
    argument beyond that type's range, and an assignment to a length. *)
Lemma operations_always_succeed_witness :
  PathData_wf 8 (PathData_ctor4 8 PathData_zeroed 1 2 300 4) /\
  (scalars_in_range (RawRouteData_ctor RawRouteData_zeroed) ->
   scalars_in_range
     (store (assign_shortest_path_length 5)
        (RawRouteData_ctor RawRouteData_zeroed))).
Proof.
  pose proof (operations_always_succeed 8 RawRouteData_zeroed)
    as (_ & H2 & _ & H4).
  split.
  - apply H2.
  - apply H4.
Defined.

(** * Further properties of the two structs *)

(** ** What a PathData object tells about the call that built it *)

Section PathDataArguments.

Variable w : N.

(** X1: two calls of the four-argument constructor build the same object
    exactly when they agree on [no], [na] and [dur] and their [tu] agree
    modulo [2 ^ w]: the object records its arguments, the bits of [tu]
    beyond [TurnInstruction] apart. *)
Theorem PathData_ctor4_injective_up_to_truncation
    (raw raw' : PathData) (no na tu dur no' na' tu' dur' : Z) :
  in_range NodeID no -> in_range unsigned na -> in_range unsigned dur ->
  in_range NodeID no' -> in_range unsigned na' -> in_range unsigned dur' ->
  (PathData_ctor4 w raw no na tu dur = PathData_ctor4 w raw' no' na' tu' dur'
   <->
   no = no' /\ na = na' /\ dur = dur' /\
   tu mod 2 ^ Z.of_N w = tu' mod 2 ^ Z.of_N w).
Proof.
  intros Hno Hna Hdur Hno' Hna' Hdur'.
  rewrite !PathData_ctor4_fields.
  rewrite !(convert_unsigned_id 32) by assumption.
  unfold TurnInstruction. rewrite !convert_unsigned_spec.
  split.
  - intros E. injection E as E1 E2 E3 E4. auto.
  - intros (-> & -> & -> & ->). reflexivity.
Qed.

(** X2: the four-argument constructor builds the object of the default
    constructor exactly when [no], [na] and [dur] are the maximum of
    [unsigned] and [tu] is congruent to the maximum of [TurnInstruction]
    modulo [2 ^ w]. *)
Theorem PathData_ctor4_builds_unset_iff
    (raw raw' : PathData) (no na tu dur : Z) :
  in_range NodeID no -> in_range unsigned na -> in_range unsigned dur ->
  (PathData_ctor4 w raw no na tu dur = PathData_ctor w raw'
   <->
   no = numeric_limits_max NodeID /\
   na = numeric_limits_max unsigned /\
   dur = numeric_limits_max unsigned /\
   tu mod 2 ^ Z.of_N w = numeric_limits_max (TurnInstruction w)).
Proof.
  intros Hno Hna Hdur.
  rewrite PathData_ctor4_fields, PathData_ctor_fields.
  rewrite !(convert_unsigned_id 32) by assumption.
  unfold TurnInstruction. rewrite convert_unsigned_spec.
  split.
  - intros E. injection E as E1 E2 E3 E4. auto.
  - intros (-> & -> & -> & ->). reflexivity.
Qed.

(** X3: passing the members of an object back to the four-argument
    constructor, [turn_instruction] third and [segment_duration] fourth,
    rebuilds the object. *)
Theorem PathData_ctor4_rebuilds (raw p : PathData) :
  PathData_wf w p ->
  PathData_ctor4 w raw (node p) (name_id p) (turn_instruction p)
    (segment_duration p) = p.
Proof.
  intros (Hn & Hna & Hd & Ht). rewrite PathData_ctor4_fields.
  rewrite !(convert_unsigned_id 32) by assumption.
  unfold TurnInstruction in *. rewrite convert_unsigned_id by assumption.
  destruct p; reflexivity.
Qed.

End PathDataArguments.

(** ** Member assignment on RawRouteData *)

Section RawRouteDataAssignment.

Context {PhantomNodes FixedPointCoordinate : Type}.

Abbreviation RouteData := (RawRouteData PhantomNodes FixedPointCoordinate).
Abbreviation MemberAssignment :=
  (Assignment PhantomNodes FixedPointCoordinate).

(** Two objects whose members read the same are the same object. *)
Lemma read_ext (r r' : RouteData) : (forall f, read f r = read f r') -> r = r'.
Proof.
  intros H. destruct r, r'.
  pose proof (H f_unpacked_path_segments) as H1.
  pose proof (H f_unpacked_alternative) as H2.
  pose proof (H f_segment_end_coordinates) as H3.
  pose proof (H f_raw_via_node_coordinates) as H4.
  pose proof (H f_check_sum) as H5.
  pose proof (H f_shortest_path_length) as H6.
  pose proof (H f_alternative_path_length) as H7.
  pose proof (H f_source_traversed_in_reverse) as H8.
  pose proof (H f_target_traversed_in_reverse) as H9.
  pose proof (H f_alt_source_traversed_in_reverse) as H10.
  pose proof (H f_alt_target_traversed_in_reverse) as H11.
  cbn in *. congruence.
Qed.

Lemma Field_eq_dec (f g : Field) : {f = g} + {f <> g}.
Proof. decide equality. Qed.

Lemma populate_app (l1 l2 : list MemberAssignment) (r : RouteData) :
  populate (l1 ++ l2) r = populate l2 (populate l1 r).
Proof. apply fold_left_app. Qed.

(** Assignments to other members leave a member as it was. *)
Lemma read_populate_untouched (f : Field) (log : list MemberAssignment) :
  ~ In f (map field_of log) ->
  forall r : RouteData, read f (populate log r) = read f r.
Proof.
  induction log as [| a log IH]; intros Hf r; [reflexivity |].
  cbn [map In] in Hf. rewrite populate_cons, IH by tauto.
  apply read_store_other. intros ->. tauto.
Qed.

(** What an assignment stores does not depend on the object. *)
Lemma read_store_same_indep (a : MemberAssignment) (r r' : RouteData) :
  read (field_of a) (store a r) = read (field_of a) (store a r').
Proof. destruct a; reflexivity. Qed.

(** Assignments to two different members commute. *)
Lemma store_comm (a b : MemberAssignment) (r : RouteData) :
  field_of a <> field_of b -> store a (store b r) = store b (store a r).
Proof. destruct a, b; cbn; intros H; try reflexivity; congruence. Qed.

Lemma read_populate_assigned (f : Field) (log : list MemberAssignment) :
  In f (map field_of log) ->
  forall r r' : RouteData, read f (populate log r) = read f (populate log r').
Proof.
  induction log as [| a log IH]; intros Hf r r'; [destruct Hf |].
  rewrite !populate_cons.
  destruct (in_dec Field_eq_dec f (map field_of log)) as [Hin | Hout].
  - apply IH, Hin.
  - rewrite !read_populate_untouched by exact Hout.
    destruct Hf as [<- | Hf]; [apply read_store_same_indep | contradiction].
Qed.

(** X4: an assigned member reads back the assigned value exactly when
    the value is a value of the member's type. *)
Theorem store_reads_back_iff_well_typed (a : MemberAssignment)
    (r : RouteData) :
  read (field_of a) (store a r) = value_of a <-> well_typed a.
Proof.
  split; [| apply read_store_same].
  destruct a; cbn; intros E; try exact I; injection E as E; rewrite <- E.
  - apply (convert_unsigned_in_range 32).
  - apply convert_int_in_range.
  - apply convert_int_in_range.
Qed.

(** X5: the last assignment to a member decides what the member holds,
    whatever was assigned before it, to this member or to others, and
    whatever is assigned to other members after it. *)
Theorem last_assignment_wins (before after : list MemberAssignment)
    (a : MemberAssignment) (r : RouteData) :
  well_typed a -> ~ In (field_of a) (map field_of after) ->
  read (field_of a) (populate (before ++ a :: after) r) = value_of a.
Proof.
  intros Ha Hafter.
  rewrite populate_app, populate_cons.
  rewrite read_populate_untouched by exact Hafter.
  apply read_store_same, Ha.
Qed.

(** X6: the order of a producer's assignments does not matter when each
    member is assigned at most once. *)
Theorem populate_order_irrelevant (l1 l2 : list MemberAssignment) :
  Permutation l1 l2 -> NoDup (map field_of l1) ->
  forall r : RouteData, populate l1 r = populate l2 r.
Proof.
  induction 1 as [| a l1 l2 Hp IH | a b l | l1 l2 l3 H12 IH12 H23 IH23];
    intros Hnd r.
  - reflexivity.
  - rewrite !populate_cons. apply IH.
    cbn [map] in Hnd. inversion Hnd; assumption.
  - rewrite !populate_cons. f_equal. apply store_comm.
    cbn [map] in Hnd. inversion Hnd as [| ? ? Hnot _]; subst.
    intros E. apply Hnot. left. exact E.
  - rewrite IH12 by exact Hnd. apply IH23.
    apply (Permutation_NoDup (l:=map field_of l1)); [| exact Hnd].
    apply Permutation_map, H12.
Qed.

(** X7: once every member has been assigned, nothing is left of what the
    object held before: the constructor's values matter only for the
    members a producer leaves unassigned. *)
Theorem full_population_overrides (log : list MemberAssignment) :
  (forall f, In f (map field_of log)) ->
  forall r r' : RouteData, populate log r = populate log r'.
Proof.
  intros Hall r r'. apply read_ext. intros f.
  apply read_populate_assigned, Hall.
Qed.

End RawRouteDataAssignment.

(** ** The further properties at concrete inputs *)

(** X1, at a concrete pair of calls: with the 8-bit [TurnInstruction],
    the arguments 300 and 44 for [tu] build the same object. *)
Lemma PathData_ctor4_injective_up_to_truncation_witness :
  PathData_ctor4 8 PathData_zeroed 7 11 300 42 =
  PathData_ctor4 8 PathData_zeroed 7 11 44 42
  <->
  7 = 7 /\ 11 = 11 /\ 42 = 42 /\
  300 mod 2 ^ Z.of_N 8 = 44 mod 2 ^ Z.of_N 8.
Proof.
  apply (PathData_ctor4_injective_up_to_truncation 8
           PathData_zeroed PathData_zeroed 7 11 300 42 7 11 44 42);
    range_by_evaluation.
Defined.

(** X2, at a concrete call: with the 8-bit [TurnInstruction], the
    argument 511 for [tu], which is not the maximum of [unsigned], builds
    the unset object. *)
Lemma PathData_ctor4_builds_unset_iff_witness :
  PathData_ctor4 8 PathData_zeroed 4294967295 4294967295 511 4294967295 =
  PathData_ctor 8 PathData_zeroed
  <->
  4294967295 = numeric_limits_max NodeID /\
  4294967295 = numeric_limits_max unsigned /\
  4294967295 = numeric_limits_max unsigned /\
  511 mod 2 ^ Z.of_N 8 = numeric_limits_max (TurnInstruction 8).
Proof.
  apply (PathData_ctor4_builds_unset_iff 8 PathData_zeroed PathData_zeroed
           4294967295 4294967295 511 4294967295);
    range_by_evaluation.
Defined.

(** X3, for an object with an 8-bit [turn_instruction]. *)
Lemma PathData_ctor4_rebuilds_witness :
  let p := {| node := 10; name_id := 1; segment_duration := 40;
              turn_instruction := 3 |} in
  PathData_wf 8 p /\
  PathData_ctor4 8 PathData_zeroed (node p) (name_id p) (turn_instruction p)
    (segment_duration p) = p.
Proof.
  cbv zeta.
  assert (H : PathData_wf 8
                {| node := 10; name_id := 1; segment_duration := 40;
                   turn_instruction := 3 |})
    by (unfold PathData_wf; range_by_evaluation).
  split; [exact H |].
  exact (PathData_ctor4_rebuilds 8 PathData_zeroed _ H).
Defined.

(** X5, at a concrete log: a length assigned after the single-leg route,
    and followed by an assignment to the checksum, is the length read. *)
Lemma last_assignment_wins_witness :
  read f_shortest_path_length
    (populate
       (single_leg_route ++
        assign_shortest_path_length 95 :: [assign_check_sum 1])
       RawRouteData_zeroed) = v_int 95.
Proof.
  apply (last_assignment_wins single_leg_route [assign_check_sum 1]
           (assign_shortest_path_length 95) RawRouteData_zeroed).
  - range_by_evaluation.
  - cbn. intuition discriminate.
Defined.

(** X6, for the population that writes every member once, run
    backwards. *)
Lemma populate_order_irrelevant_witness :
  populate full_population (RawRouteData_ctor RawRouteData_zeroed) =
  populate (rev full_population) (RawRouteData_ctor RawRouteData_zeroed).
Proof.
  apply (populate_order_irrelevant full_population (rev full_population)
           (Permutation_rev full_population) full_population_writes_once).
Defined.

Lemma full_population_covers :
  forall f, In f (map field_of full_population).
Proof. intros f. destruct f; cbn; tauto. Defined.

(** X7, at a concrete log: after the population that writes every
    member, zeroed storage and a default-constructed object have become
    the same object. *)
Lemma full_population_overrides_witness :
  populate full_population RawRouteData_zeroed =
  populate full_population (RawRouteData_ctor RawRouteData_zeroed).
Proof.
  apply (full_population_overrides full_population full_population_covers).
Defined.
